(** * Client dispatch layer (app/client/api.ts)

    A shallow embedding of the header builder [getHeaders], of the
    [ClientApi] constructor and of [ClientApi.share], with the properties
    the specification states about them.

    JavaScript strings are sequences of UTF-16 code units; they are
    modelled as [list N], so that [String.prototype.trim] and
    [String.prototype.startsWith] are the functions of the language
    standard and not approximations on bytes.  Property names of the
    header object are the six ASCII literals of the source and are kept
    as Rocq strings, the header object itself being a finite map. *)

From Stdlib Require Import NArith Ascii String.
From stdpp Require Import base option list strings gmap fin_maps.

Local Open Scope N_scope.

(** ** JavaScript strings *)

Abbreviation jsstring := (list N).

(** Code units of an ASCII literal of the source. *)
Definition js (s : string) : jsstring :=
  N_of_ascii <$> list_ascii_of_string s.

(** WhiteSpace and LineTerminator code points of ECMAScript (the set
    [trim] removes): TAB, LF, VT, FF, CR, SP, NBSP, the Unicode space
    separators, LS, PS and the byte order mark. *)
Definition isWhiteSpace (c : N) : bool :=
  ((9 <=? c) && (c <=? 13))
  || (c =? 32) || (c =? 160) || (c =? 5760)
  || ((8192 <=? c) && (c <=? 8202))
  || (c =? 8232) || (c =? 8233) || (c =? 8239) || (c =? 8287)
  || (c =? 12288) || (c =? 65279).

Fixpoint trimStart (s : jsstring) : jsstring :=
  match s with
  | c :: s' => if isWhiteSpace c then trimStart s' else s
  | [] => []
  end.

Definition trimEnd (s : jsstring) : jsstring :=
  reverse (trimStart (reverse s)).

(** [s.trim()] *)
Definition trim (s : jsstring) : jsstring := trimEnd (trimStart s).

(** [s.startsWith(p)] *)
Fixpoint startsWith (s p : jsstring) : bool :=
  match p, s with
  | [], _ => true
  | _ :: _, [] => false
  | a :: p', b :: s' => (b =? a) && startsWith s' p'
  end.

(** ** External state read by the header builder *)

(** [ServiceProvider] is declared in app/constant.ts; the header builder
    only compares the selected provider with [ServiceProvider.Azure], so
    every other member is represented by its name. *)
Inductive ServiceProvider :=
| Azure
| OtherServiceProvider (name : string).

#[global] Instance ServiceProvider_eq_dec : EqDecision ServiceProvider.
Proof. solve_decision. Defined.

(** The fields of [useAccessStore.getState()] that [getHeaders] reads.
    [enabledAccessControl] is a method of the store; the field holds
    what a call to it returns. *)
Record AccessStore := {
  provider : ServiceProvider;
  openaiApiKey : jsstring;
  azureApiKey : jsstring;
  googleApiKey : jsstring;
  accessCode : jsstring;
  isUseOpenAIEndpointForAllModels : bool;
  enabledAccessControl : bool;
}.

(** [useChatStore.getState().currentSession().mask.modelConfig] *)
Record ModelConfig := {
  model : jsstring;
}.

(** ** getHeaders *)

Abbreviation Headers := (gmap string jsstring).

(** Truthiness of an optional boolean argument ([undefined] is falsy). *)
Definition truthy_flag (b : option bool) : bool := default false b.

(** [modelConfig.model.startsWith("gemini") &&
     !accessStore.isUseOpenAIEndpointForAllModels] *)
Definition isGoogle (accessStore : AccessStore) (modelConfig : ModelConfig) : bool :=
  startsWith (model modelConfig) (js "gemini")
  && negb (isUseOpenAIEndpointForAllModels accessStore).

(** [accessStore.provider === ServiceProvider.Azure] *)
Definition isAzure (accessStore : AccessStore) : bool :=
  bool_decide (provider accessStore = Azure).

(** The key the source binds to [apiKey]. *)
Definition apiKey (accessStore : AccessStore) (modelConfig : ModelConfig) : jsstring :=
  if isGoogle accessStore modelConfig then googleApiKey accessStore
  else if isAzure accessStore then azureApiKey accessStore
  else openaiApiKey accessStore.

(** The closure [makeBearer]; it captures [isGoogle] and [isAzure]. *)
Definition makeBearer (accessStore : AccessStore) (modelConfig : ModelConfig)
    (s : jsstring) : jsstring :=
  (if isGoogle accessStore modelConfig || isAzure accessStore
   then js "" else js "Bearer ") ++ trim s.

(** [x && x.length > 0], read as a condition. *)
Definition validString (x : jsstring) : bool :=
  negb (bool_decide (x = [])) && bool_decide (0 < length x)%nat.

(** The object literal assigned to [headers] when the baseline headers
    are not suppressed. *)
Definition baselineHeaders : Headers :=
  <["Accept" := js "application/json"]>
  (<["x-requested-with" := js "XMLHttpRequest"]>
  (<["Content-Type" := js "application/json"]> ∅)).

Section GetHeaders.

(** [ACCESS_CODE_PREFIX] is a constant of app/constant.ts. *)
Variable ACCESS_CODE_PREFIX : jsstring.

Definition getHeaders (accessStore : AccessStore) (modelConfig : ModelConfig)
    (ignoreHeaders : option bool) : Headers :=
  let headers : Headers := ∅ in
  let isGoogle := isGoogle accessStore modelConfig in
  let headers :=
    if negb (truthy_flag ignoreHeaders) && negb isGoogle
    then baselineHeaders else headers in
  let isAzure := isAzure accessStore in
  let authHeader := "Authorization"%string in
  let apiKey := apiKey accessStore modelConfig in
  let makeBearer := makeBearer accessStore modelConfig in
  if validString apiKey then
    let authHeader := if isGoogle then "x-goog-api-key"%string else authHeader in
    let headers := <[authHeader := makeBearer apiKey]> headers in
    if isAzure then <["api-key"%string := makeBearer apiKey]> headers else headers
  else if enabledAccessControl accessStore
          && validString (accessCode accessStore) then
    <[authHeader := makeBearer (ACCESS_CODE_PREFIX ++ accessCode accessStore)]> headers
  else headers.

End GetHeaders.

(** ** The client facade *)

(** [ModelProvider] is declared in app/constant.ts; the constructor
    names three of its members, every other selector value is
    represented by its name. *)
Inductive ModelProvider :=
| GPT
| GeminiPro
| Claude
| OtherModelProvider (name : string).

#[global] Instance ModelProvider_eq_dec : EqDecision ModelProvider.
Proof. solve_decision. Defined.

(** The concrete subclasses of [LLMApi] the constructor instantiates
    (app/client/platforms); a value records which class was built. *)
Inductive LLMApi :=
| GeminiProApi
| ClaudeApi
| ChatGPTApi.

#[global] Instance LLMApi_eq_dec : EqDecision LLMApi.
Proof. solve_decision. Defined.

Inductive FileApi := new_FileApi.

Record ClientApi := {
  llm : LLMApi;
  file : FileApi;
}.

(** [constructor(provider: ModelProvider = ModelProvider.GPT)]; an
    omitted argument is [None]. *)
Definition new_ClientApi (provider : option ModelProvider) : ClientApi :=
  let provider := default GPT provider in
  {| llm :=
       match provider with
       | GeminiPro => GeminiProApi
       | Claude => ClaudeApi
       | _ => ChatGPTApi
       end;
     file := new_FileApi |}.

(** *** Messages *)

(** [ROLES] *)
Inductive MessageRole :=
| system
| user
| assistant.

#[global] Instance MessageRole_eq_dec : EqDecision MessageRole.
Proof. solve_decision. Defined.

Inductive ContentType :=
| text_part
| image_url_part.

Record ImageUrl := {
  url : jsstring;
}.

Record MultimodalContent := {
  type : ContentType;
  text : option jsstring;
  image_url : option ImageUrl;
}.

(** [string | MultimodalContent[]] *)
Inductive MessageContent :=
| TextContent (s : jsstring)
| PartsContent (parts : list MultimodalContent).

(** The two fields of a [ChatMessage] that [share] reads. *)
Record ChatMessage := {
  role : MessageRole;
  content : MessageContent;
}.

(** An entry of the [items] array of the share payload. *)
Record ShareItem := {
  from : jsstring;
  value : MessageContent;
}.

(** *** Promises and the network *)

(** The reason a promise is rejected with: a [TypeError] raised by the
    language, or an error of a collaborator, kept by its message. *)
Inductive Reason :=
| TypeError
| ExternalError (message : jsstring).

Inductive Promise (A : Type) :=
| Resolved (a : A)
| Rejected (reason : Reason).
Arguments Resolved {A} a.
Arguments Rejected {A} reason.

(** The outcome of evaluating an expression; the only error the
    expressions of [share] can raise is a [TypeError]. *)
Inductive Completion (A : Type) :=
| Normal (a : A)
| ThrowTypeError.
Arguments Normal {A} a.
Arguments ThrowTypeError {A}.

(** An error thrown in the body of an async function rejects the
    promise the function returned. *)
Definition settle {A : Type} (c : Completion A) : Promise A :=
  match c with
  | Normal a => Resolved a
  | ThrowTypeError => Rejected TypeError
  end.

(** [await p] followed by the rest of the function body. *)
#[global] Instance Promise_bind : MBind Promise := λ A B k p,
  match p with
  | Resolved a => k a
  | Rejected e => Rejected e
  end.

(** The argument of [JSON.stringify] in the request body. *)
Record ShareBody := {
  avatarUrl : option jsstring;
  items : list ShareItem;
}.

Record RequestInit := {
  body : ShareBody;
  headers : Headers;
  method : jsstring;
}.

(** What [res.json()] can resolve to: the values [JSON.parse] builds.
    A number is kept by its rendering [Number::toString], which is all
    [share] observes of it (both zeros render as 0, and [JSON.parse]
    yields no NaN).  An object is kept by the list of its own
    properties, each name bound once. *)
#[local] Unset Elimination Schemes.
Inductive JsonValue :=
| JNull
| JBool (b : bool)
| JNumber (rendering : jsstring)
| JString (s : jsstring)
| JArray (elements : list JsonValue)
| JObject (properties : list (jsstring * JsonValue)).
#[local] Set Elimination Schemes.

Record Response := {
  json : Promise JsonValue;
}.

(** What [getClientConfig()] returns, as far as [share] reads it. *)
Record ClientConfig := {
  isApp : bool;
}.

(** The own property [name] of an object, [None] when it has none. *)
Fixpoint get_own (name : jsstring) (properties : list (jsstring * JsonValue))
    : option JsonValue :=
  match properties with
  | [] => None
  | (k, v) :: rest => if decide (k = name) then Some v else get_own name rest
  end.

(** [resJson.id]: a [TypeError] on [null]; the own property of an
    object; [undefined] (here [None]) on an object without it and on
    every boolean, number, string and array, whose prototypes define
    no [id]. *)
Definition get_id (resJson : JsonValue) : Completion (option JsonValue) :=
  match resJson with
  | JNull => ThrowTypeError
  | JObject properties => Normal (get_own (js "id") properties)
  | _ => Normal None
  end.

(** ECMAScript [ToBoolean] on a parsed value. *)
Definition ToBoolean (v : JsonValue) : bool :=
  match v with
  | JNull => false
  | JBool b => b
  | JNumber rendering => negb (bool_decide (rendering = js "0"))
  | JString s => negb (bool_decide (s = []))
  | JArray _ => true
  | JObject _ => true
  end.

(** The condition [if (resJson.id)]; [undefined] is falsy. *)
Definition truthy (x : option JsonValue) : bool :=
  from_option ToBoolean false x.

(** ECMAScript [ToString] on a parsed value.  An array is joined with
    commas, [null] elements giving the empty string.  An object with an
    own property [toString] has no callable conversion method left (a
    parsed value is never callable, and [valueOf] returns the object),
    which is a [TypeError]; any other object is rendered by
    [Object.prototype.toString]. *)
Fixpoint ToString (v : JsonValue) : Completion jsstring :=
  match v with
  | JNull => Normal (js "null")
  | JBool b => Normal (if b then js "true" else js "false")
  | JNumber rendering => Normal rendering
  | JString s => Normal s
  | JArray elements =>
      (fix join (l : list JsonValue) : Completion jsstring :=
         match l with
         | [] => Normal []
         | x :: rest =>
             match (match x with JNull => Normal [] | _ => ToString x end) with
             | ThrowTypeError => ThrowTypeError
             | Normal next =>
                 match rest with
                 | [] => Normal next
                 | _ :: _ =>
                     match join rest with
                     | ThrowTypeError => ThrowTypeError
                     | Normal r => Normal (next ++ js "," ++ r)
                     end
                 end
             end
         end) elements
  | JObject properties =>
      match get_own (js "toString") properties with
      | Some _ => ThrowTypeError
      | None => Normal (js "[object Object]")
      end
  end.

(** A value interpolated in a template literal. *)
Definition interpolate (x : option JsonValue) : Completion jsstring :=
  match x with
  | Some v => ToString v
  | None => Normal (js "undefined")
  end.

(** The rendering of one message in the share payload. *)
Definition share_item (m : ChatMessage) : ShareItem :=
  {| from := if decide (role m = user) then js "human" else js "gpt";
     value := content m |}.

Definition attribution : ShareItem :=
  {| from := js "human";
     value := TextContent
       (js "Share from [NextChat]: https://github.com/Yidadaa/ChatGPT-Next-Web") |}.

(** The array bound to [msgs]. *)
Definition share_msgs (messages : list ChatMessage) : list ShareItem :=
  (share_item <$> messages) ++ [attribution].

Section Share.

(** The ambient collaborators of [share]: the client configuration
    (possibly undefined) and the network. *)
Variable getClientConfig : option ClientConfig.
Variable fetch : jsstring → RequestInit → Promise Response.

Definition shareUrl : jsstring :=
  let proxyUrl := js "/sharegpt" in
  let rawUrl := js "https://sharegpt.com/api/conversations" in
  if default false (isApp <$> getClientConfig) then rawUrl else proxyUrl.

Definition share_request (messages : list ChatMessage)
    (avatarUrl : option jsstring) : RequestInit :=
  {| body := {| avatarUrl := avatarUrl; items := share_msgs messages |};
     headers := {[ "Content-Type"%string := js "application/json" ]};
     method := js "POST" |}.

(** [share(messages, avatarUrl = null)]; a resolved [None] is
    [undefined].  [resJson.id] is read twice, by the condition and by
    the template literal. *)
Definition share (messages : list ChatMessage) (avatarUrl : option jsstring)
    : Promise (option jsstring) :=
  res ← fetch shareUrl (share_request messages avatarUrl);
  resJson ← json res;
  id ← settle (get_id resJson);
  if truthy id
  then
    id ← settle (get_id resJson);
    s ← settle (interpolate id);
    Resolved (Some (js "https://shareg.pt/" ++ s))
  else Resolved None.

End Share.

(** ** Concrete stores and sessions *)

(** The access store with the access-control fields replaced. *)
Definition with_access (st : AccessStore) (code : jsstring) (enabled : bool)
    : AccessStore :=
  {| provider := provider st;
     openaiApiKey := openaiApiKey st;
     azureApiKey := azureApiKey st;
     googleApiKey := googleApiKey st;
     accessCode := code;
     isUseOpenAIEndpointForAllModels := isUseOpenAIEndpointForAllModels st;
     enabledAccessControl := enabled |}.

(** The header name the personal-key branch writes to. *)
Definition keyHeaderName (st : AccessStore) (mc : ModelConfig) : string :=
  if isGoogle st mc then "x-goog-api-key"%string else "Authorization"%string.

(** The value of [ACCESS_CODE_PREFIX] used in the examples. *)
Definition nk_prefix : jsstring := js "nk-".

Definition gpt4 : ModelConfig := {| model := js "gpt-4" |}.
Definition gemini_pro : ModelConfig := {| model := js "gemini-pro" |}.

(** No personal key anywhere, access control on with code [abc]. *)
Definition store_access_only : AccessStore :=
  {| provider := OtherServiceProvider "OpenAI";
     openaiApiKey := [];
     azureApiKey := [];
     googleApiKey := [];
     accessCode := js "abc";
     isUseOpenAIEndpointForAllModels := false;
     enabledAccessControl := true |}.

(** An OpenAI key padded with blanks, and an access code. *)
Definition store_openai_key : AccessStore :=
  {| provider := OtherServiceProvider "OpenAI";
     openaiApiKey := js " sk-1 ";
     azureApiKey := [];
     googleApiKey := [];
     accessCode := js "abc";
     isUseOpenAIEndpointForAllModels := false;
     enabledAccessControl := true |}.

(** Azure selected, with an Azure key and a Google key. *)
Definition store_azure : AccessStore :=
  {| provider := Azure;
     openaiApiKey := [];
     azureApiKey := js "az-key";
     googleApiKey := js "g-key";
     accessCode := [];
     isUseOpenAIEndpointForAllModels := false;
     enabledAccessControl := false |}.

(** A Google key, access control on. *)
Definition store_google_key : AccessStore :=
  {| provider := OtherServiceProvider "Google";
     openaiApiKey := [];
     azureApiKey := [];
     googleApiKey := js "g-key";
     accessCode := js "abc";
     isUseOpenAIEndpointForAllModels := false;
     enabledAccessControl := true |}.

(** Nothing configured at all. *)
Definition store_empty : AccessStore :=
  {| provider := OtherServiceProvider "OpenAI";
     openaiApiKey := [];
     azureApiKey := [];
     googleApiKey := [];
     accessCode := [];
     isUseOpenAIEndpointForAllModels := false;
     enabledAccessControl := false |}.

(** An OpenAI key made of two blanks. *)
Definition store_blank_key : AccessStore :=
  {| provider := OtherServiceProvider "OpenAI";
     openaiApiKey := js "  ";
     azureApiKey := [];
     googleApiKey := [];
     accessCode := js "abc";
     isUseOpenAIEndpointForAllModels := false;
     enabledAccessControl := true |}.

(** The headers present before the credential is written. *)
Definition initialHeaders (st : AccessStore) (mc : ModelConfig)
    (ig : option bool) : Headers :=
  if negb (truthy_flag ig) && negb (isGoogle st mc) then baselineHeaders else ∅.

(** A conversation with one message of each role. *)
Definition sample_messages : list ChatMessage :=
  [ {| role := system; content := TextContent (js "be brief") |};
    {| role := user; content := TextContent (js "hi") |};
    {| role := assistant; content := TextContent (js "hello") |} ].

(** A share endpoint that answers every request with the body [r]. *)
Definition mock_fetch (r : JsonValue)
    : jsstring → RequestInit → Promise Response :=
  λ _ _, Resolved {| json := Resolved r |}.

(** The body [{"id":"abc123"}]. *)
Definition body_abc123 : JsonValue :=
  JObject [(js "id", JString (js "abc123"))].

(** The body [{}]. *)
Definition body_empty : JsonValue := JObject [].

(** The body [{"id":0}]. *)
Definition body_zero_id : JsonValue :=
  JObject [(js "id", JNumber (js "0"))].

(** The body [{"id":{"toString":1}}]. *)
Definition body_unprintable_id : JsonValue :=
  JObject [(js "id", JObject [(js "toString", JNumber (js "1"))])].

(** A string made of white space only (the empty string included). *)
Definition blank (s : jsstring) : Prop :=
  Forall (λ c, isWhiteSpace c = true) s.

(** A string with no white space at either end (the empty string
    included). *)
Definition unpadded (s : jsstring) : Prop :=
  (∀ c, head s = Some c → isWhiteSpace c = false)
  ∧ (∀ c, last s = Some c → isWhiteSpace c = false).

(** The prefix [makeBearer] puts before the trimmed token. *)
Definition bearerPrefix (st : AccessStore) (mc : ModelConfig) : jsstring :=
  if isGoogle st mc || isAzure st then [] else js "Bearer ".

(** The override flag set, an OpenAI key and a Google key. *)
Definition store_override : AccessStore :=
  {| provider := OtherServiceProvider "OpenAI";
     openaiApiKey := js "sk-1";
     azureApiKey := [];
     googleApiKey := js "g-key";
     accessCode := [];
     isUseOpenAIEndpointForAllModels := true;
     enabledAccessControl := false |}.

(** [store_openai_key] with keys of the two other families added. *)
Definition store_three_keys : AccessStore :=
  {| provider := OtherServiceProvider "OpenAI";
     openaiApiKey := js " sk-1 ";
     azureApiKey := js "az-key";
     googleApiKey := js "g-key";
     accessCode := js "abc";
     isUseOpenAIEndpointForAllModels := false;
     enabledAccessControl := true |}.

(** * Properties *)

(** ** Strings *)

Lemma validString_true (x : jsstring) : validString x = true ↔ x ≠ [].
Proof.
  unfold validString. destruct x as [|c x]; simpl.
  - split; [discriminate | congruence].
  - split; [discriminate | reflexivity].
Qed.

Lemma validString_false (x : jsstring) : validString x = false ↔ x = [].
Proof.
  unfold validString. destruct x as [|c x]; simpl.
  - split; reflexivity.
  - split; discriminate.
Qed.

Lemma trimStart_blank (s : jsstring) :
  Forall (λ c, isWhiteSpace c = true) s → trimStart s = [].
Proof.
  induction 1 as [|c s Hc _ IH]; simpl; [reflexivity|].
  rewrite Hc. exact IH.
Qed.

Lemma trim_blank (s : jsstring) :
  Forall (λ c, isWhiteSpace c = true) s → trim s = [].
Proof.
  intros H. unfold trim. rewrite (trimStart_blank s H). reflexivity.
Qed.

(** ** The shape of the result of getHeaders *)

Lemma initialHeaders_no_credential st mc ig :
  initialHeaders st mc ig !! "Authorization"%string = None
  ∧ initialHeaders st mc ig !! "x-goog-api-key"%string = None
  ∧ initialHeaders st mc ig !! "api-key"%string = None.
Proof.
  unfold initialHeaders.
  destruct (negb (truthy_flag ig) && negb (isGoogle st mc)); repeat split.
Qed.

Lemma getHeaders_key prefix st mc ig :
  apiKey st mc ≠ [] →
  getHeaders prefix st mc ig =
    let h := <[keyHeaderName st mc := makeBearer st mc (apiKey st mc)]>
               (initialHeaders st mc ig) in
    if isAzure st then <["api-key"%string := makeBearer st mc (apiKey st mc)]> h else h.
Proof.
  intros Hk. apply validString_true in Hk.
  unfold getHeaders. rewrite Hk. reflexivity.
Qed.

Lemma getHeaders_access_code prefix st mc ig :
  apiKey st mc = [] →
  enabledAccessControl st = true →
  accessCode st ≠ [] →
  getHeaders prefix st mc ig =
    <["Authorization"%string := makeBearer st mc (prefix ++ accessCode st)]>
      (initialHeaders st mc ig).
Proof.
  intros Hk He Hc. apply validString_false in Hk. apply validString_true in Hc.
  unfold getHeaders. rewrite Hk, He, Hc. reflexivity.
Qed.

Lemma getHeaders_nothing prefix st mc ig :
  apiKey st mc = [] →
  enabledAccessControl st = false ∨ accessCode st = [] →
  getHeaders prefix st mc ig = initialHeaders st mc ig.
Proof.
  intros Hk Hn. apply validString_false in Hk.
  unfold getHeaders. rewrite Hk.
  destruct Hn as [He | Hc].
  - rewrite He. reflexivity.
  - apply validString_false in Hc. rewrite Hc, andb_false_r. reflexivity.
Qed.

(** ** Claims about getHeaders *)

(** C1. When the API key resolved for the request's provider family is
    a non-empty string, the returned mapping carries, under the header
    the key branch writes to, the credential built from that key; and
    the result is the same whatever the access code, the access-control
    switch and the access-code prefix are. *)
Theorem getHeaders_prefers_personal_key
    (prefix : jsstring) (st : AccessStore) (mc : ModelConfig) (ig : option bool) :
  apiKey st mc ≠ [] →
  getHeaders prefix st mc ig !! keyHeaderName st mc
    = Some ((if isGoogle st mc || isAzure st then [] else js "Bearer ")
            ++ trim (apiKey st mc))
  ∧ ∀ prefix' code enabled,
      getHeaders prefix' (with_access st code enabled) mc ig
      = getHeaders prefix st mc ig.
Proof.
  intros Hk. split.
  - rewrite (getHeaders_key prefix st mc ig Hk). cbn zeta.
    change (?h !! ?k = Some _)
      with (h !! k = Some (makeBearer st mc (apiKey st mc))).
    destruct (isAzure st).
    + rewrite lookup_insert_ne, lookup_insert_eq; [reflexivity|].
      unfold keyHeaderName. destruct (isGoogle st mc); discriminate.
    + apply lookup_insert_eq.
  - intros prefix' code enabled.
    rewrite (getHeaders_key prefix st mc ig Hk).
    apply (getHeaders_key prefix' (with_access st code enabled) mc ig Hk).
Qed.

Lemma getHeaders_prefers_personal_key_witness :
  apiKey store_openai_key gpt4 ≠ []
  ∧ getHeaders nk_prefix store_openai_key gpt4 None !! "Authorization"%string
    = Some (js "Bearer sk-1")
  ∧ getHeaders nk_prefix (with_access store_openai_key (js "zzz") false) gpt4 None
    = getHeaders nk_prefix store_openai_key gpt4 None.
Proof.
  assert (Hk : apiKey store_openai_key gpt4 ≠ []) by (vm_compute; discriminate).
  split; [exact Hk|].
  destruct (getHeaders_prefers_personal_key nk_prefix store_openai_key gpt4 None Hk)
    as [Hv Hi].
  split; [exact Hv | apply Hi].
Defined.

(** C2, as stated, fails: with the same access store (so the same
    selected provider, not Azure), no personal key, access control on
    and code [abc], a Gemini session gets the bare credential [nk-abc]
    while a GPT session gets [Bearer nk-abc]. *)
Lemma access_code_bearer_depends_on_model :
  apiKey store_access_only gemini_pro = []
  ∧ apiKey store_access_only gpt4 = []
  ∧ enabledAccessControl store_access_only = true
  ∧ accessCode store_access_only ≠ []
  ∧ isAzure store_access_only = false
  ∧ getHeaders nk_prefix store_access_only gemini_pro None !! "Authorization"%string
    = Some (js "nk-abc")
  ∧ getHeaders nk_prefix store_access_only gpt4 None !! "Authorization"%string
    = Some (js "Bearer nk-abc")
  ∧ js "nk-abc" ≠ js "Bearer " ++ nk_prefix ++ accessCode store_access_only.
Proof.
  repeat split; try reflexivity; vm_compute; discriminate.
Qed.

(** C2, amended. With no personal key, access control enabled and a
    non-empty access code, the credential is written under
    [Authorization]; its value is the prefix followed by the access
    code, trimmed, and it is preceded by "Bearer " unless the selected
    provider is Azure or the session's model resolves to the Google
    family. *)
Theorem access_code_credential
    (prefix : jsstring) (st : AccessStore) (mc : ModelConfig) (ig : option bool) :
  apiKey st mc = [] →
  enabledAccessControl st = true →
  accessCode st ≠ [] →
  getHeaders prefix st mc ig !! "Authorization"%string
    = Some ((if isGoogle st mc || isAzure st then [] else js "Bearer ")
            ++ trim (prefix ++ accessCode st)).
Proof.
  intros Hk He Hc.
  rewrite (getHeaders_access_code prefix st mc ig Hk He Hc).
  apply lookup_insert_eq.
Qed.

Lemma access_code_credential_witness :
  apiKey store_access_only gpt4 = []
  ∧ enabledAccessControl store_access_only = true
  ∧ accessCode store_access_only ≠ []
  ∧ getHeaders nk_prefix store_access_only gpt4 (Some false) !! "Authorization"%string
    = Some (js "Bearer nk-abc").
Proof.
  assert (Hc : accessCode store_access_only ≠ []) by (vm_compute; discriminate).
  split; [reflexivity|]. split; [reflexivity|]. split; [exact Hc|].
  exact (access_code_credential nk_prefix store_access_only gpt4 (Some false)
           eq_refl eq_refl Hc).
Defined.

(** C3, as stated, fails: for a Gemini session with the override flag
    unset, no Google key, access control on and code [abc], a
    credential is emitted, and it sits under [Authorization], not under
    [x-goog-api-key]. *)
Lemma gemini_access_code_under_Authorization :
  startsWith (model gemini_pro) (js "gemini") = true
  ∧ isUseOpenAIEndpointForAllModels store_access_only = false
  ∧ getHeaders nk_prefix store_access_only gemini_pro None !! "Authorization"%string
    = Some (js "nk-abc")
  ∧ getHeaders nk_prefix store_access_only gemini_pro None !! "x-goog-api-key"%string
    = None.
Proof.
  repeat split.
Qed.

(** C3, amended. For a session whose model name starts with the Gemini
    prefix, with the override flag unset: a non-empty Google key is
    placed under [x-goog-api-key] and nothing is placed under
    [Authorization]; without a Google key nothing is placed under
    [x-goog-api-key], and the access-code credential, when access
    control is enabled and the code is non-empty, goes under
    [Authorization]. *)
Theorem gemini_auth_header_name
    (prefix : jsstring) (st : AccessStore) (mc : ModelConfig) (ig : option bool) :
  startsWith (model mc) (js "gemini") = true →
  isUseOpenAIEndpointForAllModels st = false →
  (googleApiKey st ≠ [] →
     getHeaders prefix st mc ig !! "x-goog-api-key"%string
       = Some (trim (googleApiKey st))
     ∧ getHeaders prefix st mc ig !! "Authorization"%string = None)
  ∧ (googleApiKey st = [] →
     getHeaders prefix st mc ig !! "x-goog-api-key"%string = None
     ∧ (enabledAccessControl st = true → accessCode st ≠ [] →
        getHeaders prefix st mc ig !! "Authorization"%string
          = Some (trim (prefix ++ accessCode st)))).
Proof.
  intros Hm Hf.
  assert (Hg : isGoogle st mc = true) by (unfold isGoogle; rewrite Hm, Hf; reflexivity).
  assert (Ha : apiKey st mc = googleApiKey st) by (unfold apiKey; rewrite Hg; reflexivity).
  assert (Hi : initialHeaders st mc ig = ∅)
    by (unfold initialHeaders; rewrite Hg, andb_false_r; reflexivity).
  split.
  - intros Hk. rewrite <- Ha in Hk.
    rewrite (getHeaders_key prefix st mc ig Hk). cbn zeta.
    unfold keyHeaderName, makeBearer. rewrite Hg, Hi, Ha. simpl.
    destruct (isAzure st); split; by simplify_map_eq.
  - intros Hk. rewrite <- Ha in Hk. split.
    + destruct (enabledAccessControl st) eqn:He.
      * destruct (accessCode st) as [|c cs] eqn:Hc.
        -- rewrite (getHeaders_nothing prefix st mc ig Hk (or_intror Hc)), Hi.
           apply lookup_empty.
        -- rewrite (getHeaders_access_code prefix st mc ig Hk He)
             by (rewrite Hc; discriminate).
           rewrite lookup_insert_ne by discriminate. rewrite Hi. apply lookup_empty.
      * rewrite (getHeaders_nothing prefix st mc ig Hk (or_introl He)), Hi.
        apply lookup_empty.
    + intros He Hc.
      rewrite (getHeaders_access_code prefix st mc ig Hk He Hc), lookup_insert_eq.
      unfold makeBearer. rewrite Hg. reflexivity.
Qed.

Lemma gemini_auth_header_name_witness :
  startsWith (model gemini_pro) (js "gemini") = true
  ∧ isUseOpenAIEndpointForAllModels store_google_key = false
  ∧ googleApiKey store_google_key ≠ []
  ∧ getHeaders nk_prefix store_google_key gemini_pro None !! "x-goog-api-key"%string
    = Some (js "g-key")
  ∧ getHeaders nk_prefix store_google_key gemini_pro None !! "Authorization"%string
    = None.
Proof.
  assert (Hk : googleApiKey store_google_key ≠ []) by (vm_compute; discriminate).
  split; [reflexivity|]. split; [reflexivity|]. split; [exact Hk|].
  exact (proj1 (gemini_auth_header_name nk_prefix store_google_key gemini_pro None
                  eq_refl eq_refl) Hk).
Defined.

(** C4, as stated, fails: for a Gemini session with the override flag
    unset and the ignore-headers flag unset, none of the three baseline
    headers is in the result. *)
Lemma gemini_no_baseline_headers :
  truthy_flag None = false
  ∧ getHeaders nk_prefix store_google_key gemini_pro None !! "Content-Type"%string = None
  ∧ getHeaders nk_prefix store_google_key gemini_pro None !! "x-requested-with"%string = None
  ∧ getHeaders nk_prefix store_google_key gemini_pro None !! "Accept"%string = None.
Proof.
  repeat split.
Qed.

(** C4, amended. With the ignore-headers flag unset (absent or false),
    the result contains the three baseline JSON headers provided the
    session's model does not resolve to the Google family, that is,
    unless its name starts with the Gemini prefix while the override
    flag is unset. *)
Theorem baseline_headers_unless_google
    (prefix : jsstring) (st : AccessStore) (mc : ModelConfig) (ig : option bool) :
  truthy_flag ig = false →
  isGoogle st mc = false →
  getHeaders prefix st mc ig !! "Content-Type"%string = Some (js "application/json")
  ∧ getHeaders prefix st mc ig !! "x-requested-with"%string = Some (js "XMLHttpRequest")
  ∧ getHeaders prefix st mc ig !! "Accept"%string = Some (js "application/json").
Proof.
  intros Hig Hg.
  assert (Hi : initialHeaders st mc ig = baselineHeaders)
    by (unfold initialHeaders; rewrite Hig, Hg; reflexivity).
  assert (Hb : baselineHeaders !! "Content-Type"%string = Some (js "application/json")
             ∧ baselineHeaders !! "x-requested-with"%string = Some (js "XMLHttpRequest")
             ∧ baselineHeaders !! "Accept"%string = Some (js "application/json"))
    by (repeat split).
  destruct (decide (apiKey st mc = [])) as [Hk | Hk].
  - destruct (enabledAccessControl st) eqn:He.
    + destruct (decide (accessCode st = [])) as [Hc | Hc].
      * rewrite (getHeaders_nothing prefix st mc ig Hk (or_intror Hc)), Hi. exact Hb.
      * rewrite (getHeaders_access_code prefix st mc ig Hk He Hc), Hi.
        rewrite !lookup_insert_ne by discriminate. exact Hb.
    + rewrite (getHeaders_nothing prefix st mc ig Hk (or_introl He)), Hi. exact Hb.
  - rewrite (getHeaders_key prefix st mc ig Hk), Hi. cbn zeta.
    unfold keyHeaderName. rewrite Hg.
    destruct (isAzure st); rewrite !lookup_insert_ne by discriminate; exact Hb.
Qed.

Lemma baseline_headers_unless_google_witness :
  truthy_flag (Some false) = false
  ∧ isGoogle store_openai_key gpt4 = false
  ∧ getHeaders nk_prefix store_openai_key gpt4 (Some false) !! "Content-Type"%string
    = Some (js "application/json")
  ∧ getHeaders nk_prefix store_openai_key gpt4 (Some false) !! "x-requested-with"%string
    = Some (js "XMLHttpRequest")
  ∧ getHeaders nk_prefix store_openai_key gpt4 (Some false) !! "Accept"%string
    = Some (js "application/json").
Proof.
  split; [reflexivity|]. split; [reflexivity|].
  exact (baseline_headers_unless_google nk_prefix store_openai_key gpt4 (Some false)
           eq_refl eq_refl).
Defined.

(** C5, as stated, fails: with Azure selected and both an Azure and a
    Google key configured, a Gemini session (override flag unset) gets
    no [Authorization] entry at all; the key in use is the Google one. *)
Lemma azure_gemini_no_Authorization :
  isAzure store_azure = true
  ∧ azureApiKey store_azure ≠ []
  ∧ apiKey store_azure gemini_pro ≠ []
  ∧ getHeaders nk_prefix store_azure gemini_pro None !! "Authorization"%string = None.
Proof.
  split; [reflexivity|]. split; [vm_compute; discriminate|].
  split; [vm_compute; discriminate|]. reflexivity.
Qed.

(** C5, amended. When the selected provider is Azure, the session's
    model does not resolve to the Google family and the Azure key is
    non-empty, the result contains both [Authorization] and [api-key],
    and both hold the trimmed Azure key with no "Bearer " prefix. *)
Theorem azure_key_headers
    (prefix : jsstring) (st : AccessStore) (mc : ModelConfig) (ig : option bool) :
  provider st = Azure →
  isGoogle st mc = false →
  azureApiKey st ≠ [] →
  getHeaders prefix st mc ig !! "Authorization"%string = Some (trim (azureApiKey st))
  ∧ getHeaders prefix st mc ig !! "api-key"%string = Some (trim (azureApiKey st)).
Proof.
  intros Hp Hg Hk.
  assert (Hz : isAzure st = true) by (unfold isAzure; rewrite Hp; reflexivity).
  assert (Ha : apiKey st mc = azureApiKey st)
    by (unfold apiKey; rewrite Hg, Hz; reflexivity).
  rewrite <- Ha in Hk.
  rewrite (getHeaders_key prefix st mc ig Hk). cbn zeta.
  unfold keyHeaderName, makeBearer. rewrite Hg, Hz, Ha. simpl.
  split; by simplify_map_eq.
Qed.

Lemma azure_key_headers_witness :
  provider store_azure = Azure
  ∧ isGoogle store_azure gpt4 = false
  ∧ azureApiKey store_azure ≠ []
  ∧ getHeaders nk_prefix store_azure gpt4 None !! "Authorization"%string
    = Some (js "az-key")
  ∧ getHeaders nk_prefix store_azure gpt4 None !! "api-key"%string
    = Some (js "az-key").
Proof.
  assert (Hk : azureApiKey store_azure ≠ []) by (vm_compute; discriminate).
  split; [reflexivity|]. split; [reflexivity|]. split; [exact Hk|].
  exact (azure_key_headers nk_prefix store_azure gpt4 None eq_refl eq_refl Hk).
Defined.

(** C6. When the resolved API key is empty and access control is
    disabled or the access code is empty, the call returns the initial
    headers unchanged (the baseline ones or none), so the result has
    no [Authorization], no [x-goog-api-key] and no [api-key] entry. *)
Theorem no_credential_no_auth_header
    (prefix : jsstring) (st : AccessStore) (mc : ModelConfig) (ig : option bool) :
  apiKey st mc = [] →
  enabledAccessControl st = false ∨ accessCode st = [] →
  getHeaders prefix st mc ig
    = (if negb (truthy_flag ig) && negb (isGoogle st mc) then baselineHeaders else ∅)
  ∧ getHeaders prefix st mc ig !! "Authorization"%string = None
  ∧ getHeaders prefix st mc ig !! "x-goog-api-key"%string = None
  ∧ getHeaders prefix st mc ig !! "api-key"%string = None.
Proof.
  intros Hk Hn.
  rewrite (getHeaders_nothing prefix st mc ig Hk Hn).
  split; [reflexivity|]. apply initialHeaders_no_credential.
Qed.

Lemma no_credential_no_auth_header_witness :
  apiKey store_empty gpt4 = []
  ∧ (enabledAccessControl store_empty = false ∨ accessCode store_empty = [])
  ∧ getHeaders nk_prefix store_empty gpt4 None = baselineHeaders
  ∧ getHeaders nk_prefix store_empty gpt4 None !! "Authorization"%string = None
  ∧ getHeaders nk_prefix store_empty gpt4 None !! "x-goog-api-key"%string = None
  ∧ getHeaders nk_prefix store_empty gpt4 None !! "api-key"%string = None.
Proof.
  split; [reflexivity|]. split; [left; reflexivity|].
  exact (no_credential_no_auth_header nk_prefix store_empty gpt4 None
           eq_refl (or_introl eq_refl)).
Defined.

(** C10. When the resolved API key is non-empty and made of white
    space only, the key branch is taken: the result does not depend on
    the access code, the access-control switch or the prefix, and the
    credential is the trimmed, hence empty, key, so that outside the
    Google family and Azure the [Authorization] value is exactly
    "Bearer ". *)
Theorem blank_key_shadows_access_code
    (prefix : jsstring) (st : AccessStore) (mc : ModelConfig) (ig : option bool) :
  apiKey st mc ≠ [] →
  Forall (λ c, isWhiteSpace c = true) (apiKey st mc) →
  (∀ prefix' code enabled,
      getHeaders prefix' (with_access st code enabled) mc ig
      = getHeaders prefix st mc ig)
  ∧ getHeaders prefix st mc ig !! keyHeaderName st mc
    = Some (if isGoogle st mc || isAzure st then [] else js "Bearer ")
  ∧ (isGoogle st mc = false → isAzure st = false →
     getHeaders prefix st mc ig !! "Authorization"%string = Some (js "Bearer ")).
Proof.
  intros Hk Hw.
  assert (Hv : getHeaders prefix st mc ig !! keyHeaderName st mc
               = Some (if isGoogle st mc || isAzure st then [] else js "Bearer ")).
  { rewrite (getHeaders_key prefix st mc ig Hk). cbn zeta.
    unfold makeBearer. rewrite (trim_blank _ Hw), app_nil_r.
    destruct (isAzure st).
    - rewrite lookup_insert_ne, lookup_insert_eq.
      + rewrite orb_true_r. reflexivity.
      + unfold keyHeaderName. destruct (isGoogle st mc); discriminate.
    - apply lookup_insert_eq. }
  split; [|split].
  - intros prefix' code enabled.
    rewrite (getHeaders_key prefix st mc ig Hk).
    apply (getHeaders_key prefix' (with_access st code enabled) mc ig Hk).
  - exact Hv.
  - intros Hg Hz. unfold keyHeaderName in Hv. rewrite Hg, Hz in Hv. exact Hv.
Qed.

Lemma blank_key_shadows_access_code_witness :
  apiKey store_blank_key gpt4 ≠ []
  ∧ Forall (λ c, isWhiteSpace c = true) (apiKey store_blank_key gpt4)
  ∧ getHeaders nk_prefix (with_access store_blank_key [] false) gpt4 None
    = getHeaders nk_prefix store_blank_key gpt4 None
  ∧ getHeaders nk_prefix store_blank_key gpt4 None !! "Authorization"%string
    = Some (js "Bearer ").
Proof.
  assert (Hk : apiKey store_blank_key gpt4 ≠ []) by (vm_compute; discriminate).
  assert (Hw : Forall (λ c, isWhiteSpace c = true) (apiKey store_blank_key gpt4))
    by (repeat constructor).
  split; [exact Hk|]. split; [exact Hw|].
  destruct (blank_key_shadows_access_code nk_prefix store_blank_key gpt4 None Hk Hw)
    as (Hi & _ & Hb).
  split; [apply Hi | exact (Hb eq_refl eq_refl)].
Defined.

(** ** Claims about the client facade *)

(** C8. The constructor binds the GeminiPro client for the selector
    GeminiPro, the Claude client for the selector Claude, and the
    OpenAI (ChatGPT) client for every other selector and when no
    selector is supplied. *)
Theorem constructor_binds_llm (provider : option ModelProvider) :
  llm (new_ClientApi provider)
  = if decide (provider = Some GeminiPro) then GeminiProApi
    else if decide (provider = Some Claude) then ClaudeApi
    else ChatGPTApi.
Proof.
  destruct provider as [[ | | | name] | ]; repeat case_decide; done.
Qed.



(** C7, as stated, fails on two bodies the endpoint can send.  The
    body [null] has no [id], and reading [resJson.id] raises a
    [TypeError], so [share] is rejected instead of resolving to
    [undefined].  The body [{"id":{"toString":1}}] has a truthy [id],
    and the template literal cannot convert it, so [share] is rejected
    instead of resolving to a URL. *)
Lemma share_rejects_after_parsing :
  share None (mock_fetch JNull) sample_messages None = Rejected TypeError
  ∧ get_id body_unprintable_id
    = Normal (Some (JObject [(js "toString", JNumber (js "1"))]))
  ∧ ToBoolean (JObject [(js "toString", JNumber (js "1"))]) = true
  ∧ share None (mock_fetch body_unprintable_id) sample_messages None
    = Rejected TypeError.
Proof.
  repeat split.
Qed.

(** The tail of [share] once the request is answered and the body
    parsed. *)
Lemma share_tail
    (getClientConfig : option ClientConfig)
    (fetch : jsstring → RequestInit → Promise Response)
    (messages : list ChatMessage) (avatarUrl : option jsstring)
    (res : Response) (resJson : JsonValue) :
  fetch (shareUrl getClientConfig) (share_request messages avatarUrl) = Resolved res →
  json res = Resolved resJson →
  share getClientConfig fetch messages avatarUrl
  = match get_id resJson with
    | ThrowTypeError => Rejected TypeError
    | Normal id =>
        if truthy id
        then match interpolate id with
             | ThrowTypeError => Rejected TypeError
             | Normal s => Resolved (Some (js "https://shareg.pt/" ++ s))
             end
        else Resolved None
    end.
Proof.
  intros Hf Hj. unfold share. rewrite Hf. simpl. rewrite Hj. simpl.
  destruct (get_id resJson) as [id|]; simpl; [|reflexivity].
  destruct (truthy id); [|reflexivity].
  destruct (interpolate id); reflexivity.
Qed.

Lemma get_id_not_null (resJson : JsonValue) :
  resJson ≠ JNull → ∃ id, get_id resJson = Normal id.
Proof.
  destruct resJson; simpl; eauto. intros H. contradiction.
Qed.

(** C7, amended. When the request is answered and the body parses to a
    JSON value other than [null], reading [resJson.id] does not throw,
    and: a truthy [id] that converts to a string makes [share] resolve
    to "https://shareg.pt/" followed by the string form of that id, in
    particular a non-empty string [id] gives that string itself; a
    body without [id], or with a falsy one, makes [share] resolve to
    [undefined]. *)
Theorem share_result
    (getClientConfig : option ClientConfig)
    (fetch : jsstring → RequestInit → Promise Response)
    (messages : list ChatMessage) (avatarUrl : option jsstring)
    (res : Response) (resJson : JsonValue) :
  fetch (shareUrl getClientConfig) (share_request messages avatarUrl) = Resolved res →
  json res = Resolved resJson →
  resJson ≠ JNull →
  (∃ id, get_id resJson = Normal id)
  ∧ (∀ v s, get_id resJson = Normal (Some v) → ToBoolean v = true →
       ToString v = Normal s →
       share getClientConfig fetch messages avatarUrl
       = Resolved (Some (js "https://shareg.pt/" ++ s)))
  ∧ (∀ s, get_id resJson = Normal (Some (JString s)) → s ≠ [] →
       share getClientConfig fetch messages avatarUrl
       = Resolved (Some (js "https://shareg.pt/" ++ s)))
  ∧ (get_id resJson = Normal None →
       share getClientConfig fetch messages avatarUrl = Resolved None)
  ∧ (∀ v, get_id resJson = Normal (Some v) → ToBoolean v = false →
       share getClientConfig fetch messages avatarUrl = Resolved None).
Proof.
  intros Hf Hj Hn.
  rewrite (share_tail getClientConfig fetch messages avatarUrl res resJson Hf Hj).
  split; [apply get_id_not_null, Hn|].
  split; [|split; [|split]].
  - intros v s Hv Ht Hs. rewrite Hv. simpl. rewrite Ht, Hs. reflexivity.
  - intros s Hv Hs. rewrite Hv. simpl.
    destruct s; [contradiction | reflexivity].
  - intros Hv. rewrite Hv. reflexivity.
  - intros v Hv Ht. rewrite Hv. simpl. rewrite Ht. reflexivity.
Qed.

Lemma share_result_witness :
  body_abc123 ≠ JNull
  ∧ body_empty ≠ JNull
  ∧ share None (mock_fetch body_abc123) sample_messages None
    = Resolved (Some (js "https://shareg.pt/abc123"))
  ∧ share None (mock_fetch body_empty) sample_messages None
    = Resolved None.
Proof.
  assert (Ha : body_abc123 ≠ JNull) by discriminate.
  assert (He : body_empty ≠ JNull) by discriminate.
  split; [exact Ha|]. split; [exact He|]. split.
  - refine (proj1 (proj2 (proj2 (share_result None (mock_fetch body_abc123)
                     sample_messages None _ _ eq_refl eq_refl Ha)))
              (js "abc123") eq_refl _).
    vm_compute; discriminate.
  - exact (proj1 (proj2 (proj2 (proj2 (share_result None (mock_fetch body_empty)
                           sample_messages None _ _ eq_refl eq_refl He))))
             eq_refl).
Defined.

(** A failure of the network or of the body parser is passed on: the
    promise [share] returns is rejected with the same reason. *)
Lemma share_rejected
    (getClientConfig : option ClientConfig)
    (fetch : jsstring → RequestInit → Promise Response)
    (messages : list ChatMessage) (avatarUrl : option jsstring) (e : Reason) :
  fetch (shareUrl getClientConfig) (share_request messages avatarUrl) = Rejected e
  ∨ (∃ res, fetch (shareUrl getClientConfig) (share_request messages avatarUrl)
            = Resolved res ∧ json res = Rejected e) →
  share getClientConfig fetch messages avatarUrl = Rejected e.
Proof.
  unfold share. intros [Hf | (res & Hf & Hj)]; rewrite Hf; simpl.
  - reflexivity.
  - rewrite Hj. reflexivity.
Qed.

(** * Further properties *)

(** ** The string operations *)

Lemma trimStart_split (s : jsstring) :
  ∃ a, s = a ++ trimStart s ∧ blank a
       ∧ ∀ c, head (trimStart s) = Some c → isWhiteSpace c = false.
Proof.
  induction s as [|c s (a & Hs & Ha & Hh)]; simpl.
  - exists []. repeat split; [constructor | discriminate].
  - destruct (isWhiteSpace c) eqn:Hc.
    + exists (c :: a). repeat split.
      * simpl. f_equal. exact Hs.
      * constructor; assumption.
      * exact Hh.
    + exists []. repeat split; [constructor|].
      simpl. intros c' [= <-]. exact Hc.
Qed.

Lemma trimEnd_split (s : jsstring) :
  ∃ b, s = trimEnd s ++ b ∧ blank b
       ∧ ∀ c, last (trimEnd s) = Some c → isWhiteSpace c = false.
Proof.
  destruct (trimStart_split (reverse s)) as (a & Hs & Ha & Hh).
  exists (reverse a). unfold trimEnd. repeat split.
  - rewrite <- reverse_app, <- Hs, reverse_involutive. reflexivity.
  - apply Forall_reverse. exact Ha.
  - intros c. rewrite last_reverse. apply Hh.
Qed.

Lemma trimStart_fixed (s : jsstring) :
  (∀ c, head s = Some c → isWhiteSpace c = false) → trimStart s = s.
Proof.
  destruct s as [|c s]; simpl; [reflexivity|].
  intros H. rewrite (H c eq_refl). reflexivity.
Qed.

Lemma trimEnd_fixed (s : jsstring) :
  (∀ c, last s = Some c → isWhiteSpace c = false) → trimEnd s = s.
Proof.
  intros H. unfold trimEnd. rewrite trimStart_fixed.
  - apply reverse_involutive.
  - intros c. rewrite head_reverse. apply H.
Qed.

Lemma trim_is_unpadded (s : jsstring) : unpadded (trim s).
Proof.
  unfold trim.
  destruct (trimStart_split s) as (a & _ & _ & Hh).
  destruct (trimEnd_split (trimStart s)) as (b & Hs & _ & Hl).
  split; [|exact Hl].
  intros c Hc. apply Hh. rewrite Hs.
  destruct (trimEnd (trimStart s)); [discriminate | exact Hc].
Qed.

Lemma trim_unpadded (s : jsstring) : unpadded s → trim s = s.
Proof.
  intros [Hh Hl]. unfold trim.
  rewrite (trimStart_fixed s Hh). apply trimEnd_fixed, Hl.
Qed.

Lemma trim_split (s : jsstring) :
  ∃ a b, s = a ++ trim s ++ b ∧ blank a ∧ blank b.
Proof.
  destruct (trimStart_split s) as (a & Hs & Ha & _).
  destruct (trimEnd_split (trimStart s)) as (b & Ht & Hb & _).
  exists a, b. repeat split; try assumption.
  unfold trim. rewrite <- Ht. exact Hs.
Qed.

(** X1. [trim] cuts a string into a blank prefix, the result and a
    blank suffix, and the result has no white space at either end. *)
Theorem trim_spec (s : jsstring) :
  ∃ a b, s = a ++ trim s ++ b ∧ blank a ∧ blank b ∧ unpadded (trim s).
Proof.
  destruct (trim_split s) as (a & b & Hs & Ha & Hb).
  exists a, b. repeat split; try assumption; apply trim_is_unpadded.
Qed.

(** X2. [trim] is idempotent, and it returns the empty string exactly
    on the strings made of white space only. *)
Theorem trim_idempotent_blank (s : jsstring) :
  trim (trim s) = trim s ∧ (trim s = [] ↔ blank s).
Proof.
  split.
  - apply trim_unpadded, trim_is_unpadded.
  - split.
    + intros He. destruct (trim_split s) as (a & b & Hs & Ha & Hb).
      rewrite He in Hs. rewrite Hs. apply Forall_app. split; assumption.
    + apply trim_blank.
Qed.

(** X3. [startsWith] holds exactly when the string is the prefix
    followed by some rest. *)
Theorem startsWith_spec (s p : jsstring) :
  startsWith s p = true ↔ ∃ t, s = p ++ t.
Proof.
  revert s. induction p as [|a p IH]; intros [|b s]; cbn [startsWith].
  - split; [intros _; exists []; reflexivity | reflexivity].
  - split; [intros _; exists (b :: s); reflexivity | reflexivity].
  - split; [discriminate | intros (t & Ht); discriminate].
  - rewrite andb_true_iff, N.eqb_eq, IH. split.
    + intros (-> & t & ->). exists t. reflexivity.
    + intros (t & [= -> ->]). split; [reflexivity | exists t; reflexivity].
Qed.

(** ** The header builder *)

Lemma baselineHeaders_lookup (k : string) (v : jsstring) :
  baselineHeaders !! k = Some v ↔
    (k = "Content-Type"%string ∧ v = js "application/json")
    ∨ (k = "x-requested-with"%string ∧ v = js "XMLHttpRequest")
    ∨ (k = "Accept"%string ∧ v = js "application/json").
Proof.
  unfold baselineHeaders.
  rewrite !lookup_insert_Some, lookup_empty. split.
  - intros [[<- <-] | [_ [[<- <-] | [_ [[<- <-] | [_ ?]]]]]]; auto; discriminate.
  - intros [[-> ->] | [[-> ->] | [-> ->]]].
    + right. split; [discriminate|]. right. split; [discriminate|]. left. done.
    + right. split; [discriminate|]. left. done.
    + left. done.
Qed.

Lemma initialHeaders_lookup st mc ig (k : string) (v : jsstring) :
  initialHeaders st mc ig !! k = Some v ↔
    truthy_flag ig = false ∧ isGoogle st mc = false ∧ baselineHeaders !! k = Some v.
Proof.
  unfold initialHeaders.
  destruct (truthy_flag ig), (isGoogle st mc); simpl;
    rewrite ?lookup_empty; split; try done; intros (? & ? & ?); done.
Qed.

(** Splits a goal about [getHeaders] along the three ways the function
    can run: the key branch, the access-code branch, neither. *)
Ltac getHeaders_branches prefix st mc ig :=
  let Hk := fresh "Hk" in
  let He := fresh "He" in
  let Hc := fresh "Hc" in
  destruct (decide (apiKey st mc = [])) as [Hk | Hk];
  [ destruct (enabledAccessControl st) eqn:He;
    [ destruct (decide (accessCode st = [])) as [Hc | Hc];
      [ rewrite !(getHeaders_nothing prefix st mc ig Hk (or_intror Hc))
      | rewrite !(getHeaders_access_code prefix st mc ig Hk He Hc) ]
    | rewrite !(getHeaders_nothing prefix st mc ig Hk (or_introl He)) ]
  | rewrite !(getHeaders_key prefix st mc ig Hk); cbn zeta ].

(** X4. Whatever the stores hold, the result has no entry outside the
    six header names of the source. *)
Theorem getHeaders_header_names
    (prefix : jsstring) (st : AccessStore) (mc : ModelConfig) (ig : option bool)
    (k : string) (v : jsstring) :
  getHeaders prefix st mc ig !! k = Some v →
  k = "Content-Type"%string ∨ k = "x-requested-with"%string ∨ k = "Accept"%string
  ∨ k = "Authorization"%string ∨ k = "x-goog-api-key"%string ∨ k = "api-key"%string.
Proof.
  assert (Hinit : ∀ w, initialHeaders st mc ig !! k = Some w →
            k = "Content-Type"%string ∨ k = "x-requested-with"%string
            ∨ k = "Accept"%string ∨ k = "Authorization"%string
            ∨ k = "x-goog-api-key"%string ∨ k = "api-key"%string).
  { intros w Hw. apply initialHeaders_lookup in Hw as (_ & _ & Hw).
    apply baselineHeaders_lookup in Hw.
    destruct Hw as [[Hq _] | [[Hq _] | [Hq _]]]; rewrite Hq; auto 10. }
  getHeaders_branches prefix st mc ig.
  - apply Hinit.
  - rewrite lookup_insert_Some.
    intros [[Hq _] | [_ Hv]]; [rewrite <- Hq; auto 10 | eauto].
  - apply Hinit.
  - unfold keyHeaderName.
    destruct (isAzure st), (isGoogle st mc);
      rewrite ?lookup_insert_Some; intros Hv;
      repeat (destruct Hv as [[Hq _] | [_ Hv]]; [rewrite <- Hq; auto 10|]); eauto.
Qed.

Lemma getHeaders_header_names_witness :
  "Authorization"%string = "Content-Type"%string
  ∨ "Authorization"%string = "x-requested-with"%string
  ∨ "Authorization"%string = "Accept"%string
  ∨ "Authorization"%string = "Authorization"%string
  ∨ "Authorization"%string = "x-goog-api-key"%string
  ∨ "Authorization"%string = "api-key"%string.
Proof.
  exact (getHeaders_header_names nk_prefix store_openai_key gpt4 None
           "Authorization"%string (js "Bearer sk-1") eq_refl).
Defined.

(** X5. The result never carries both an [Authorization] and an
    [x-goog-api-key] entry. *)
Theorem getHeaders_single_auth_header
    (prefix : jsstring) (st : AccessStore) (mc : ModelConfig) (ig : option bool) :
  getHeaders prefix st mc ig !! "Authorization"%string = None
  ∨ getHeaders prefix st mc ig !! "x-goog-api-key"%string = None.
Proof.
  destruct (initialHeaders_no_credential st mc ig) as (Ha & Hg & _).
  getHeaders_branches prefix st mc ig.
  - left. exact Ha.
  - right. rewrite lookup_insert_ne by discriminate. exact Hg.
  - left. exact Ha.
  - unfold keyHeaderName. destruct (isGoogle st mc); [left | right];
      destruct (isAzure st); rewrite !lookup_insert_ne by discriminate; assumption.
Qed.

(** X6. The result has an [api-key] entry exactly when Azure is the
    selected provider and the resolved key is non-empty, and then its
    value is the one written under the key header. *)
Theorem api_key_header_iff
    (prefix : jsstring) (st : AccessStore) (mc : ModelConfig) (ig : option bool) :
  (is_Some (getHeaders prefix st mc ig !! "api-key"%string)
     ↔ provider st = Azure ∧ apiKey st mc ≠ [])
  ∧ (is_Some (getHeaders prefix st mc ig !! "api-key"%string) →
     getHeaders prefix st mc ig !! "api-key"%string
     = getHeaders prefix st mc ig !! keyHeaderName st mc).
Proof.
  destruct (initialHeaders_no_credential st mc ig) as (_ & _ & Hn).
  assert (Hz : isAzure st = true ↔ provider st = Azure)
    by (unfold isAzure; apply bool_decide_eq_true).
  assert (Hname : keyHeaderName st mc ≠ "api-key"%string)
    by (unfold keyHeaderName; destruct (isGoogle st mc); discriminate).
  getHeaders_branches prefix st mc ig.
  - rewrite Hn. split; [split|]; intros H; [destruct H; discriminate | tauto
      | destruct H; discriminate].
  - rewrite lookup_insert_ne, Hn by discriminate.
    split; [split|]; intros H; [destruct H; discriminate | tauto
      | destruct H; discriminate].
  - rewrite Hn. split; [split|]; intros H; [destruct H; discriminate | tauto
      | destruct H; discriminate].
  - destruct (isAzure st) eqn:Ez.
    + rewrite lookup_insert_eq, (lookup_insert_ne _ "api-key"%string) by done.
      rewrite lookup_insert_eq. split; [split|]; [| eauto | reflexivity].
      intros _. split; [apply Hz; reflexivity | exact Hk].
    + rewrite lookup_insert_ne, Hn by done.
      split; [split|]; intros H; [destruct H; discriminate |
        | destruct H; discriminate].
      destruct H as [Hp _]. apply Hz in Hp. discriminate.
Qed.

(** X7. The result carries a credential, under [Authorization] or
    under [x-goog-api-key], exactly when the resolved key is non-empty
    or access control is enabled with a non-empty access code. *)
Theorem credential_emitted_iff
    (prefix : jsstring) (st : AccessStore) (mc : ModelConfig) (ig : option bool) :
  is_Some (getHeaders prefix st mc ig !! "Authorization"%string)
  ∨ is_Some (getHeaders prefix st mc ig !! "x-goog-api-key"%string)
  ↔ apiKey st mc ≠ [] ∨ (enabledAccessControl st = true ∧ accessCode st ≠ []).
Proof.
  destruct (initialHeaders_no_credential st mc ig) as (Ha & Hg & _).
  getHeaders_branches prefix st mc ig.
  - rewrite Ha, Hg. split.
    + intros [[? ?] | [? ?]]; discriminate.
    + intros [? | [_ ?]]; contradiction.
  - rewrite lookup_insert_eq. split; [intros _; right; done | intros _; left; eauto].
  - rewrite Ha, Hg. split.
    + intros [[? ?] | [? ?]]; discriminate.
    + intros [? | [? _]]; [contradiction | discriminate].
  - split; [intros _; left; exact Hk|]. intros _.
    unfold keyHeaderName.
    destruct (isGoogle st mc); [right | left];
      destruct (isAzure st);
      rewrite ?(lookup_insert_ne _ "api-key"%string) by discriminate;
      rewrite lookup_insert_eq; eauto.
Qed.

(** X18. Where the credential goes: [x-goog-api-key] is present exactly
    when the session resolves to the Google family and the Google key
    is non-empty; [Authorization] is present exactly when a non-empty
    key is resolved outside the Google family, or no key is resolved
    and access control is enabled with a non-empty access code. *)
Theorem credential_header_placement
    (prefix : jsstring) (st : AccessStore) (mc : ModelConfig) (ig : option bool) :
  (is_Some (getHeaders prefix st mc ig !! "x-goog-api-key"%string)
     ↔ isGoogle st mc = true ∧ googleApiKey st ≠ [])
  ∧ (is_Some (getHeaders prefix st mc ig !! "Authorization"%string)
     ↔ (isGoogle st mc = false ∧ apiKey st mc ≠ [])
       ∨ (apiKey st mc = [] ∧ enabledAccessControl st = true ∧ accessCode st ≠ [])).
Proof.
  destruct (initialHeaders_no_credential st mc ig) as (Ha & Hg & _).
  assert (Hres : isGoogle st mc = true → apiKey st mc = googleApiKey st)
    by (intros E; unfold apiKey; rewrite E; reflexivity).
  assert (Hnone : ∀ o : option jsstring, o = None → ¬ is_Some o)
    by (intros o -> [x Hx]; discriminate).
  getHeaders_branches prefix st mc ig.
  - split; (split; [intros H; exfalso; revert H; apply Hnone; assumption|]).
    + intros [E Hne]. rewrite <- (Hres E) in Hne. contradiction.
    + intros [[_ ?] | (_ & _ & ?)]; contradiction.
  - rewrite lookup_insert_ne by discriminate. rewrite lookup_insert_eq. split.
    + split; [intros H; exfalso; revert H; apply Hnone; assumption|].
      intros [E Hne]. rewrite <- (Hres E) in Hne. contradiction.
    + split; [intros _; right; done | eauto].
  - split; (split; [intros H; exfalso; revert H; apply Hnone; assumption|]).
    + intros [E Hne]. rewrite <- (Hres E) in Hne. contradiction.
    + intros [[_ ?] | (_ & ? & _)]; [contradiction | discriminate].
  - unfold keyHeaderName. destruct (isGoogle st mc) eqn:E.
    + assert (Hx : is_Some ((if isAzure st
                  then <["api-key"%string := makeBearer st mc (apiKey st mc)]>
                         (<["x-goog-api-key"%string := makeBearer st mc (apiKey st mc)]>
                            (initialHeaders st mc ig))
                  else <["x-goog-api-key"%string := makeBearer st mc (apiKey st mc)]>
                         (initialHeaders st mc ig)) !! "x-goog-api-key"%string)).
      { destruct (isAzure st);
          rewrite ?(lookup_insert_ne _ "api-key"%string) by discriminate;
          rewrite lookup_insert_eq; eauto. }
      assert (Hy : (if isAzure st
                  then <["api-key"%string := makeBearer st mc (apiKey st mc)]>
                         (<["x-goog-api-key"%string := makeBearer st mc (apiKey st mc)]>
                            (initialHeaders st mc ig))
                  else <["x-goog-api-key"%string := makeBearer st mc (apiKey st mc)]>
                         (initialHeaders st mc ig)) !! "Authorization"%string = None).
      { destruct (isAzure st); rewrite !lookup_insert_ne by discriminate; exact Ha. }
      split.
      * split; [intros _; split; [reflexivity | rewrite <- (Hres eq_refl); exact Hk]
               | intros _; exact Hx].
      * split; [intros H; exfalso; revert H; apply Hnone, Hy|].
        intros [[? _] | [? _]]; [discriminate | contradiction].
    + split.
      * split; [|intros [? _]; discriminate].
        intros H. exfalso. revert H. apply Hnone.
        destruct (isAzure st); rewrite !lookup_insert_ne by discriminate; exact Hg.
      * split; [intros _; left; done|]. intros _.
        destruct (isAzure st);
          rewrite ?(lookup_insert_ne _ "api-key"%string) by discriminate;
          rewrite lookup_insert_eq; eauto.
Qed.

(** X8. The model name acts on the result only through the Google
    test: two sessions that agree on it (both Gemini names, neither, or
    any two names once the override flag is set) get the same headers. *)
Theorem getHeaders_same_family
    (prefix : jsstring) (st : AccessStore) (mc mc' : ModelConfig) (ig : option bool) :
  isGoogle st mc = isGoogle st mc' →
  getHeaders prefix st mc ig = getHeaders prefix st mc' ig.
Proof.
  intros Hg. unfold getHeaders, apiKey, makeBearer. rewrite Hg. reflexivity.
Qed.

Lemma getHeaders_same_family_witness :
  isGoogle store_override gemini_pro = isGoogle store_override gpt4
  ∧ getHeaders nk_prefix store_override gemini_pro None
    = getHeaders nk_prefix store_override gpt4 None.
Proof.
  split; [reflexivity|].
  exact (getHeaders_same_family nk_prefix store_override gemini_pro gpt4 None eq_refl).
Defined.

(** X9. Only the resolved key is read: two access stores with the same
    selected provider, override flag, access code and access-control
    switch, and the same resolved key for the session, give the same
    headers, whatever the keys of the other families are. *)
Theorem getHeaders_reads_resolved_key_only
    (prefix : jsstring) (st st' : AccessStore) (mc : ModelConfig) (ig : option bool) :
  provider st = provider st' →
  isUseOpenAIEndpointForAllModels st = isUseOpenAIEndpointForAllModels st' →
  accessCode st = accessCode st' →
  enabledAccessControl st = enabledAccessControl st' →
  apiKey st mc = apiKey st' mc →
  getHeaders prefix st mc ig = getHeaders prefix st' mc ig.
Proof.
  intros Hp Hf Hc He Hk.
  assert (Hg : isGoogle st mc = isGoogle st' mc) by (unfold isGoogle; rewrite Hf; reflexivity).
  assert (Hz : isAzure st = isAzure st') by (unfold isAzure; rewrite Hp; reflexivity).
  unfold getHeaders, makeBearer. rewrite Hk, Hg, Hz, Hc, He. reflexivity.
Qed.

Lemma getHeaders_reads_resolved_key_only_witness :
  provider store_openai_key = provider store_three_keys
  ∧ isUseOpenAIEndpointForAllModels store_openai_key
    = isUseOpenAIEndpointForAllModels store_three_keys
  ∧ accessCode store_openai_key = accessCode store_three_keys
  ∧ enabledAccessControl store_openai_key = enabledAccessControl store_three_keys
  ∧ apiKey store_openai_key gpt4 = apiKey store_three_keys gpt4
  ∧ getHeaders nk_prefix store_openai_key gpt4 None
    = getHeaders nk_prefix store_three_keys gpt4 None.
Proof.
  split; [reflexivity|]. split; [reflexivity|]. split; [reflexivity|].
  split; [reflexivity|]. split; [reflexivity|].
  exact (getHeaders_reads_resolved_key_only nk_prefix store_openai_key store_three_keys
           gpt4 None eq_refl eq_refl eq_refl eq_refl eq_refl).
Defined.

(** X10. The ignore-headers flag has no effect on the credential: the
    entries [Authorization], [x-goog-api-key] and [api-key] are the
    same for every value of the flag. *)
Theorem ignoreHeaders_keeps_credentials
    (prefix : jsstring) (st : AccessStore) (mc : ModelConfig) (ig ig' : option bool) :
  getHeaders prefix st mc ig !! "Authorization"%string
    = getHeaders prefix st mc ig' !! "Authorization"%string
  ∧ getHeaders prefix st mc ig !! "x-goog-api-key"%string
    = getHeaders prefix st mc ig' !! "x-goog-api-key"%string
  ∧ getHeaders prefix st mc ig !! "api-key"%string
    = getHeaders prefix st mc ig' !! "api-key"%string.
Proof.
  destruct (initialHeaders_no_credential st mc ig) as (Ha & Hg & Hn).
  destruct (initialHeaders_no_credential st mc ig') as (Ha' & Hg' & Hn').
  getHeaders_branches prefix st mc ig.
  - rewrite (getHeaders_nothing prefix st mc ig' Hk (or_intror Hc)).
    rewrite Ha, Hg, Hn, Ha', Hg', Hn'. done.
  - rewrite !(getHeaders_access_code prefix st mc ig' Hk He Hc).
    rewrite lookup_insert_eq, !lookup_insert_eq.
    rewrite !lookup_insert_ne by discriminate.
    rewrite Hg, Hn, Hg', Hn'. done.
  - rewrite (getHeaders_nothing prefix st mc ig' Hk (or_introl He)).
    rewrite Ha, Hg, Hn, Ha', Hg', Hn'. done.
  - rewrite !(getHeaders_key prefix st mc ig' Hk). cbn zeta.
    unfold keyHeaderName.
    destruct (isAzure st), (isGoogle st mc);
      repeat (rewrite ?lookup_insert_eq; rewrite ?lookup_insert_ne by discriminate);
      rewrite ?Ha, ?Hg, ?Hn, ?Ha', ?Hg', ?Hn'; done.
Qed.

(** X11. Each of the three baseline headers is present exactly when
    the ignore-headers flag is unset and the session does not resolve
    to the Google family; the credential never overwrites them. *)
Theorem baseline_headers_iff
    (prefix : jsstring) (st : AccessStore) (mc : ModelConfig) (ig : option bool)
    (k : string) :
  k = "Content-Type"%string ∨ k = "x-requested-with"%string ∨ k = "Accept"%string →
  getHeaders prefix st mc ig !! k
  = if negb (truthy_flag ig) && negb (isGoogle st mc)
    then baselineHeaders !! k else None.
Proof.
  intros Hk0.
  assert (Hne : k ≠ "Authorization"%string ∧ k ≠ "x-goog-api-key"%string
                ∧ k ≠ "api-key"%string)
    by (destruct Hk0 as [-> | [-> | ->]]; done).
  destruct Hne as (N1 & N2 & N3).
  assert (Hi : initialHeaders st mc ig !! k
               = if negb (truthy_flag ig) && negb (isGoogle st mc)
                 then baselineHeaders !! k else None).
  { unfold initialHeaders.
    destruct (negb (truthy_flag ig) && negb (isGoogle st mc)); [done | apply lookup_empty]. }
  getHeaders_branches prefix st mc ig.
  - exact Hi.
  - rewrite lookup_insert_ne by done. exact Hi.
  - exact Hi.
  - assert (keyHeaderName st mc ≠ k)
      by (unfold keyHeaderName; destruct (isGoogle st mc); done).
    destruct (isAzure st); rewrite !lookup_insert_ne by done; exact Hi.
Qed.

Lemma baseline_headers_iff_witness :
  getHeaders nk_prefix store_google_key gemini_pro (Some false) !! "Accept"%string
  = None.
Proof.
  exact (baseline_headers_iff nk_prefix store_google_key gemini_pro (Some false)
           "Accept"%string (or_intror (or_intror eq_refl))).
Defined.

(** X12. Every credential the result holds, under any of the three
    credential headers, is the bearer prefix of the call ("Bearer " or
    nothing) followed by a token with no white space at either end. *)
Theorem credential_value_shape
    (prefix : jsstring) (st : AccessStore) (mc : ModelConfig) (ig : option bool)
    (k : string) (v : jsstring) :
  k = "Authorization"%string ∨ k = "x-goog-api-key"%string ∨ k = "api-key"%string →
  getHeaders prefix st mc ig !! k = Some v →
  ∃ t, v = bearerPrefix st mc ++ t ∧ unpadded t.
Proof.
  intros Hk0.
  assert (Hi : initialHeaders st mc ig !! k = None).
  { destruct (initialHeaders_no_credential st mc ig) as (Ha & Hg & Hn).
    destruct Hk0 as [-> | [-> | ->]]; assumption. }
  assert (Hb : ∀ s, ∃ t, makeBearer st mc s = bearerPrefix st mc ++ t ∧ unpadded t).
  { intros s. exists (trim s). split; [reflexivity | apply trim_is_unpadded]. }
  getHeaders_branches prefix st mc ig.
  - rewrite Hi. discriminate.
  - rewrite lookup_insert_Some, Hi.
    intros [[_ <-] | [_ ?]]; [apply Hb | discriminate].
  - rewrite Hi. discriminate.
  - destruct (isAzure st); rewrite !lookup_insert_Some, Hi.
    + intros [[_ <-] | [_ [[_ <-] | [_ ?]]]]; [apply Hb | apply Hb | discriminate].
    + intros [[_ <-] | [_ ?]]; [apply Hb | discriminate].
Qed.

Lemma credential_value_shape_witness :
  ∃ t, js "Bearer sk-1" = bearerPrefix store_openai_key gpt4 ++ t ∧ unpadded t.
Proof.
  exact (credential_value_shape nk_prefix store_openai_key gpt4 None
           "Authorization"%string (js "Bearer sk-1") (or_introl eq_refl) eq_refl).
Defined.

(** X13. A non-empty resolved key with no white space at either end
    is sent verbatim: the key header holds the bearer prefix followed
    by the key itself. *)
Theorem clean_key_sent_verbatim
    (prefix : jsstring) (st : AccessStore) (mc : ModelConfig) (ig : option bool) :
  apiKey st mc ≠ [] →
  unpadded (apiKey st mc) →
  getHeaders prefix st mc ig !! keyHeaderName st mc
  = Some (bearerPrefix st mc ++ apiKey st mc).
Proof.
  intros Hk Hu.
  rewrite (getHeaders_key prefix st mc ig Hk). cbn zeta.
  assert (Hv : makeBearer st mc (apiKey st mc) = bearerPrefix st mc ++ apiKey st mc)
    by (unfold makeBearer, bearerPrefix; rewrite (trim_unpadded _ Hu); reflexivity).
  rewrite Hv.
  destruct (isAzure st).
  - rewrite lookup_insert_ne, lookup_insert_eq; [reflexivity|].
    unfold keyHeaderName. destruct (isGoogle st mc); discriminate.
  - apply lookup_insert_eq.
Qed.

Lemma clean_key_sent_verbatim_witness :
  apiKey store_google_key gemini_pro ≠ []
  ∧ unpadded (apiKey store_google_key gemini_pro)
  ∧ getHeaders nk_prefix store_google_key gemini_pro None !! "x-goog-api-key"%string
    = Some (js "g-key").
Proof.
  assert (Hk : apiKey store_google_key gemini_pro ≠ []) by (vm_compute; discriminate).
  assert (Hu : unpadded (apiKey store_google_key gemini_pro)).
  { split; intros c [= <-]; reflexivity. }
  split; [exact Hk|]. split; [exact Hu|].
  exact (clean_key_sent_verbatim nk_prefix store_google_key gemini_pro None Hk Hu).
Defined.

(** X14. With Azure selected and a session that resolves to the Google
    family, a non-empty Google key is what the call sends: it goes,
    trimmed, under both [x-goog-api-key] and [api-key], there is no
    [Authorization] entry, and the Azure key plays no part. *)
Theorem azure_gemini_sends_google_key
    (prefix : jsstring) (st : AccessStore) (mc : ModelConfig) (ig : option bool) :
  provider st = Azure →
  isGoogle st mc = true →
  googleApiKey st ≠ [] →
  getHeaders prefix st mc ig
  = <["api-key"%string := trim (googleApiKey st)]>
      (<["x-goog-api-key"%string := trim (googleApiKey st)]> ∅).
Proof.
  intros Hp Hg Hk.
  assert (Hz : isAzure st = true) by (unfold isAzure; rewrite Hp; reflexivity).
  assert (Ha : apiKey st mc = googleApiKey st) by (unfold apiKey; rewrite Hg; reflexivity).
  rewrite <- Ha in Hk.
  rewrite (getHeaders_key prefix st mc ig Hk). cbn zeta.
  unfold keyHeaderName, makeBearer, initialHeaders.
  rewrite Hg, Hz, Ha, andb_false_r. reflexivity.
Qed.

Lemma azure_gemini_sends_google_key_witness :
  provider store_azure = Azure
  ∧ isGoogle store_azure gemini_pro = true
  ∧ googleApiKey store_azure ≠ []
  ∧ getHeaders nk_prefix store_azure gemini_pro None
    = <["api-key"%string := js "g-key"]>
        (<["x-goog-api-key"%string := js "g-key"]> ∅).
Proof.
  assert (Hk : googleApiKey store_azure ≠ []) by (vm_compute; discriminate).
  split; [reflexivity|]. split; [reflexivity|]. split; [exact Hk|].
  exact (azure_gemini_sends_google_key nk_prefix store_azure gemini_pro None
           eq_refl eq_refl Hk).
Defined.

(** ** Sharing a conversation *)

(** X15. [share] is rejected in exactly three ways: the request fails,
    or the response body cannot be parsed, each time with the reason of
    that failure; or, after both succeeded, with a [TypeError], which
    happens when the body is [null] or when its [id] is truthy and has
    no conversion to a string. *)
Theorem share_rejected_iff
    (getClientConfig : option ClientConfig)
    (fetch : jsstring → RequestInit → Promise Response)
    (messages : list ChatMessage) (avatarUrl : option jsstring) (e : Reason) :
  share getClientConfig fetch messages avatarUrl = Rejected e
  ↔ fetch (shareUrl getClientConfig) (share_request messages avatarUrl) = Rejected e
    ∨ (∃ res, fetch (shareUrl getClientConfig) (share_request messages avatarUrl)
              = Resolved res ∧ json res = Rejected e)
    ∨ (∃ res resJson,
         fetch (shareUrl getClientConfig) (share_request messages avatarUrl)
           = Resolved res
         ∧ json res = Resolved resJson
         ∧ e = TypeError
         ∧ (resJson = JNull
            ∨ ∃ v, get_id resJson = Normal (Some v) ∧ ToBoolean v = true
                   ∧ ToString v = ThrowTypeError)).
Proof.
  split.
  - destruct (fetch (shareUrl getClientConfig) (share_request messages avatarUrl))
      as [res | e'] eqn:Hf.
    + destruct (json res) as [resJson | e''] eqn:Hj.
      * rewrite (share_tail _ _ _ _ res resJson Hf Hj). intros Hs.
        right. right. exists res, resJson.
        split; [reflexivity|]. split; [exact Hj|].
        destruct resJson as [ | b | r | t | l | ps] eqn:Eb;
          try (simpl in Hs; discriminate).
        -- simpl in Hs. injection Hs as <-. split; [reflexivity | left; reflexivity].
        -- simpl in Hs. destruct (get_own (js "id") ps) as [v|] eqn:Hv;
             simpl in Hs; [|discriminate].
           destruct (ToBoolean v) eqn:Ht; [|discriminate].
           destruct (ToString v) as [u|] eqn:Hu; [discriminate|].
           injection Hs as <-. split; [reflexivity|]. right.
           exists v. simpl. rewrite Hv. repeat split; assumption.
      * intros Hs. right. left. exists res. split; [reflexivity|].
        rewrite (share_rejected getClientConfig fetch messages avatarUrl e'') in Hs
          by (right; exists res; split; assumption).
        injection Hs as <-. exact Hj.
    + intros Hs. left.
      rewrite (share_rejected getClientConfig fetch messages avatarUrl e') in Hs
        by (left; exact Hf).
      injection Hs as <-. reflexivity.
  - intros [Hf | [(res & Hf & Hj) | (res & resJson & Hf & Hj & -> & Hb)]].
    + apply share_rejected. left. exact Hf.
    + apply share_rejected. right. exists res. split; assumption.
    + rewrite (share_tail _ _ _ _ res resJson Hf Hj).
      destruct Hb as [-> | (v & Hv & Ht & Hu)]; [reflexivity|].
      rewrite Hv. simpl. rewrite Ht, Hu. reflexivity.
Qed.

(** X16. Conversely to the success case: when [share] resolves, the
    request was answered, the body parsed and it is not [null]; a URL
    is returned only for a truthy [id] and is "https://shareg.pt/"
    followed by the string form of that id, and [undefined] is returned
    only when the [id] is absent or falsy. *)
Theorem share_resolved_inv
    (getClientConfig : option ClientConfig)
    (fetch : jsstring → RequestInit → Promise Response)
    (messages : list ChatMessage) (avatarUrl : option jsstring)
    (r : option jsstring) :
  share getClientConfig fetch messages avatarUrl = Resolved r →
  ∃ res resJson id,
    fetch (shareUrl getClientConfig) (share_request messages avatarUrl) = Resolved res
    ∧ json res = Resolved resJson
    ∧ resJson ≠ JNull
    ∧ get_id resJson = Normal id
    ∧ match r with
      | Some u => ∃ v s, id = Some v ∧ ToBoolean v = true ∧ ToString v = Normal s
                         ∧ u = js "https://shareg.pt/" ++ s
      | None => truthy id = false
      end.
Proof.
  destruct (fetch (shareUrl getClientConfig) (share_request messages avatarUrl))
    as [res | e'] eqn:Hf.
  - destruct (json res) as [resJson | e''] eqn:Hj.
    + rewrite (share_tail _ _ _ _ res resJson Hf Hj).
      destruct (get_id resJson) as [id|] eqn:Hi; [|discriminate].
      intros Hs. exists res, resJson, id.
      split; [reflexivity|]. split; [exact Hj|].
      split; [intros Hnull; rewrite Hnull in Hi; discriminate Hi|].
      split; [exact Hi|].
      destruct (truthy id) eqn:Ht.
      * destruct id as [v|]; [|discriminate]. simpl in Hs, Ht.
        destruct (ToString v) as [s|] eqn:Hu; [|discriminate].
        injection Hs as <-. exists v, s. repeat split; assumption.
      * injection Hs as <-. reflexivity.
    + intros Hs.
      rewrite (share_rejected getClientConfig fetch messages avatarUrl e'') in Hs;
        [discriminate|]. right. exists res. split; assumption.
  - intros Hs.
    rewrite (share_rejected getClientConfig fetch messages avatarUrl e') in Hs;
      [discriminate | left; exact Hf].
Qed.

Lemma share_resolved_inv_witness :
  ∃ res resJson id,
    mock_fetch body_zero_id (shareUrl None) (share_request sample_messages None)
      = Resolved res
    ∧ json res = Resolved resJson
    ∧ resJson ≠ JNull
    ∧ get_id resJson = Normal id
    ∧ truthy id = false.
Proof.
  exact (share_resolved_inv None (mock_fetch body_zero_id)
           sample_messages None None eq_refl).
Defined.




(** The conversions on some parsed values, as a JavaScript console
    shows them: [String([[1,2],null,"a"])] is [1,2,,a], [String({})]
    is [[object Object]], and [String([{"toString":1}])] throws. *)
Lemma ToString_examples :
  ToString (JArray [JArray [JNumber (js "1"); JNumber (js "2")]; JNull; JString (js "a")])
    = Normal (js "1,2,,a")
  ∧ ToString (JObject []) = Normal (js "[object Object]")
  ∧ ToString (JArray [JObject [(js "toString", JNumber (js "1"))]]) = ThrowTypeError
  ∧ ToBoolean (JArray []) = true
  ∧ ToBoolean (JNumber (js "0")) = false
  ∧ ToBoolean (JString []) = false.
Proof.
  repeat split.
Qed.
